(** * Structural validation of GitHub Actions workflow files

    A shallow embedding of [scripts/validate-github-actions.py] and the
    properties of its report.

    The script loads one YAML document with [yaml.safe_load], runs a fixed
    sequence of checks that append messages to a local list [errors], prints
    the outcome and returns a boolean.  The embedding keeps that shape:

    - the loaded tree is a [pyval] (the Python objects [safe_load] builds);
    - the body of the [try] block is [check_workflow], written in a small
      error monad because attribute and item access raise on the wrong type;
    - printing is explicit state passing over the lines written so far
      ([stdout]), and [validate_workflow] returns the boolean together with
      the new output. *)

From Stdlib Require Import List String Ascii ZArith Bool Lia Sorted.
From Stdlib Require Import DecimalString Permutation.
Import ListNotations.
Local Open Scope string_scope.
Local Open Scope list_scope.

Set Warnings "-register-all".

(* ================================================================== *)
(** ** Python values produced by the loader *)
(* ================================================================== *)

(** Dictionary keys are hashable scalars.  The scalars of the model are
    [None], booleans, integers and strings; floats and dates, which the
    checks only ever test for truth or print, are left out. *)
Inductive pykey : Type :=
| KNone
| KBool (b : bool)
| KInt (z : Z)
| KStr (s : string).

(** A dictionary is kept as its items in insertion order, which is the order
    [dict.items()] iterates in. *)
Inductive pyval : Type :=
| PNone
| PBool (b : bool)
| PInt (z : Z)
| PStr (s : string)
| PList (l : list pyval)
| PDict (d : list (pykey * pyval)).

Definition pydict : Type := list (pykey * pyval).

(** Exceptions the body of the [try] block can raise on a loaded tree. *)
Inductive pyexc : Type :=
| TypeError (type_name : string)
| AttributeError (type_name attr : string)
| KeyError (key : pykey)
| OSError (msg : string).

Module Py.

(** The error monad of the [try] body: [inl e] is a raised exception. *)
Definition result (A : Type) : Type := (pyexc + A)%type.

Definition ret {A} (a : A) : result A := inr a.
Definition raise {A} (e : pyexc) : result A := inl e.
Definition bind {A B} (m : result A) (k : A -> result B) : result B :=
  match m with
  | inl e => inl e
  | inr a => k a
  end.

(** [type(v).__name__] *)
Definition type_name (v : pyval) : string :=
  match v with
  | PNone => "NoneType"
  | PBool _ => "bool"
  | PInt _ => "int"
  | PStr _ => "str"
  | PList _ => "list"
  | PDict _ => "dict"
  end.

(** Truth value testing: [None], [False], zero and empty containers are
    false. *)
Definition truthy (v : pyval) : bool :=
  match v with
  | PNone => false
  | PBool b => b
  | PInt z => negb (Z.eqb z 0)
  | PStr s => negb (String.eqb s "")
  | PList l => match l with [] => false | _ :: _ => true end
  | PDict d => match d with [] => false | _ :: _ => true end
  end.

(** [isinstance(v, dict)] and [isinstance(v, list)] *)
Definition is_dict (v : pyval) : bool :=
  match v with PDict _ => true | _ => false end.

Definition is_list (v : pyval) : bool :=
  match v with PList _ => true | _ => false end.

(** Key comparison as a dictionary performs it: [True == 1] and
    [False == 0] (with equal hashes), everything else by type and value. *)
Definition int_of_bool (b : bool) : Z := if b then 1%Z else 0%Z.

Definition key_eqb (k1 k2 : pykey) : bool :=
  match k1, k2 with
  | KNone, KNone => true
  | KBool a, KBool b => Bool.eqb a b
  | KBool a, KInt z => Z.eqb (int_of_bool a) z
  | KInt z, KBool a => Z.eqb z (int_of_bool a)
  | KInt a, KInt b => Z.eqb a b
  | KStr a, KStr b => String.eqb a b
  | _, _ => false
  end.

(** First item stored under a key equal to [k]. *)
Fixpoint lookup (d : pydict) (k : pykey) : option pyval :=
  match d with
  | [] => None
  | (k', v) :: d' => if key_eqb k k' then Some v else lookup d' k
  end.

(** [str(k)], as an f-string interpolates a key. *)
Definition str (k : pykey) : string :=
  match k with
  | KNone => "None"
  | KBool true => "True"
  | KBool false => "False"
  | KInt z => NilEmpty.string_of_int (Z.to_int z)
  | KStr s => s
  end.

(** [k in w] for a string [k]: key membership on a dict, substring test on
    a str, element membership on a list, [TypeError] otherwise. *)
Definition is_str (k : string) (v : pyval) : bool :=
  match v with PStr s => String.eqb k s | _ => false end.

Definition substring_of (k s : string) : bool :=
  match String.index 0 k s with Some _ => true | None => false end.

Definition contains (k : string) (w : pyval) : result bool :=
  match w with
  | PDict d => ret (match lookup d (KStr k) with Some _ => true | None => false end)
  | PStr s => ret (substring_of k s)
  | PList l => ret (existsb (is_str k) l)
  | _ => raise (TypeError (type_name w))
  end.

(** [w.get(k)]: the value, or [None] when the key is missing. *)
Definition get (w : pyval) (k : pykey) : result pyval :=
  match w with
  | PDict d => ret (match lookup d k with Some v => v | None => PNone end)
  | _ => raise (AttributeError (type_name w) "get")
  end.

(** [w[k]] for a string [k].  On a str or a list a string index is a
    [TypeError]. *)
Definition getitem (w : pyval) (k : string) : result pyval :=
  match w with
  | PDict d => match lookup d (KStr k) with
               | Some v => ret v
               | None => raise (KeyError (KStr k))
               end
  | _ => raise (TypeError (type_name w))
  end.

(** [v.items()] *)
Definition items (v : pyval) : result pydict :=
  match v with
  | PDict d => ret d
  | _ => raise (AttributeError (type_name v) "items")
  end.

End Py.

Notation "x <- m ;; k" := (Py.bind m (fun x => k))
  (at level 61, m at next level, right associativity).

(* ================================================================== *)
(** ** Findings *)
(* ================================================================== *)

(** One constructor per [errors.append] in the script; the argument is the
    interpolated [str] of the trigger or job name. *)
Inductive finding : Type :=
| MissingName
| MissingOn
| EmptyOn
| MissingJobs
| EmptyJobs
| EmptyTriggerConfiguration (trigger : string)
| EmptyTriggerList (trigger : string)
| JobNotDict (job_name : string)
| JobMissingRunsOn (job_name : string)
| JobMissingSteps (job_name : string)
| JobEmptySteps (job_name : string).

(** The string appended to [errors]. *)
Definition message (f : finding) : string :=
  match f with
  | MissingName => "Missing required field: name"
  | MissingOn => "Missing required field: on (triggers)"
  | EmptyOn => "Empty on field - no triggers defined"
  | MissingJobs => "Missing required field: jobs"
  | EmptyJobs => "Empty jobs field - no jobs defined"
  | EmptyTriggerConfiguration t => "Empty " ++ t ++ " trigger configuration"
  | EmptyTriggerList t => "Empty " ++ t ++ " trigger list"
  | JobNotDict j => "Job " ++ j ++ " is not a dictionary"
  | JobMissingRunsOn j => "Job " ++ j ++ " missing runs-on field"
  | JobMissingSteps j => "Job " ++ j ++ " missing steps field"
  | JobEmptySteps j => "Job " ++ j ++ " has empty steps"
  end.

(* ================================================================== *)
(** ** The checks of [validate_workflow] *)
(* ================================================================== *)

(** Body of the loop over [on_field.items()]: one iteration appends at most
    one message. *)
Definition trigger_step (errors : list finding) (item : pykey * pyval)
  : list finding :=
  let (trigger, config) := item in
  if Py.is_dict config && negb (Py.truthy config) then
    errors ++ [EmptyTriggerConfiguration (Py.str trigger)]
  else if Py.is_list config && negb (Py.truthy config) then
    errors ++ [EmptyTriggerList (Py.str trigger)]
  else errors.

(** Body of the loop over [workflow["jobs"].items()]. *)
Definition job_step (errors : list finding) (item : pykey * pyval)
  : list finding :=
  let (job_name, job_config) := item in
  match job_config with
  | PDict cfg =>
      let errors :=
        match Py.lookup cfg (KStr "runs-on") with
        | None => errors ++ [JobMissingRunsOn (Py.str job_name)]
        | Some _ => errors
        end in
      match Py.lookup cfg (KStr "steps") with
      | None => errors ++ [JobMissingSteps (Py.str job_name)]
      | Some steps =>
          if negb (Py.truthy steps) then
            errors ++ [JobEmptySteps (Py.str job_name)]
          else errors
      end
  | _ => errors ++ [JobNotDict (Py.str job_name)]   (* continue *)
  end.

(** [workflow.get("on") or workflow.get(True)] *)
Definition on_lookup (workflow : pyval) : Py.result pyval :=
  a <- Py.get workflow (KStr "on") ;;
  if Py.truthy a then Py.ret a else Py.get workflow (KBool true).

(** Lines 17 to 58: from [errors = []] to the end of the job loop.  The
    result is the value of [errors] when line 60 is reached, or the exception
    that left the block. *)
Definition check_workflow (workflow : pyval) : Py.result (list finding) :=
  let errors := [] in
  (* Check for required fields *)
  has_name <- Py.contains "name" workflow ;;
  let errors := if negb has_name then errors ++ [MissingName] else errors in
  (* Handle YAML quirk where 'on' is parsed as boolean True *)
  on_field <- on_lookup workflow ;;
  let errors :=
    if negb (Py.truthy on_field) then errors ++ [MissingOn]
    else if negb (Py.truthy on_field) then errors ++ [EmptyOn]
    else errors in
  has_jobs <- Py.contains "jobs" workflow ;;
  errors <-
    (if negb has_jobs then Py.ret (errors ++ [MissingJobs])
     else
       jobs <- Py.getitem workflow "jobs" ;;
       Py.ret (if negb (Py.truthy jobs) then errors ++ [EmptyJobs] else errors)) ;;
  (* Check for common issues *)
  let errors :=
    if Py.truthy on_field then
      match on_field with
      | PDict triggers => fold_left trigger_step triggers errors
      | _ => errors
      end
    else errors in
  (* Check jobs structure *)
  has_jobs <- Py.contains "jobs" workflow ;;
  if has_jobs then
    jobs <- Py.getitem workflow "jobs" ;;
    job_items <- Py.items jobs ;;
    Py.ret (fold_left job_step job_items errors)
  else Py.ret errors.

(* ================================================================== *)
(** ** Output and return value *)
(* ================================================================== *)

(** What lines 14 and 15 ([open] and [yaml.safe_load]) leave behind: the
    loaded tree, a [yaml.YAMLError] with its text, or another exception
    (an unreadable file, say). *)
Inductive loaded : Type :=
| Loaded (workflow : pyval)
| RaisedYAMLError (e : string)
| RaisedException (e : pyexc).

(** One constructor per [print] call of [validate_workflow]. *)
Inductive line : Type :=
| PrintInvalid (file_path : string)            (* cross mark, file_path, colon *)
| PrintError (error : string)                  (* one indented line per error *)
| PrintValid (file_path : string)              (* check mark, file_path, Valid *)
| PrintYAMLError (file_path e : string)        (* file_path, YAML Error: e *)
| PrintException (file_path : string) (e : pyexc). (* file_path, Error: e *)

Definition stdout : Type := list line.

(** Lines 60 to 67. *)
Definition report (file_path : string) (errors : list string) (out : stdout)
  : bool * stdout :=
  match errors with
  | _ :: _ =>
      let out := out ++ [PrintInvalid file_path] in
      let out := fold_left (fun o error => o ++ [PrintError error]) errors out in
      (false, out)
  | [] => (true, out ++ [PrintValid file_path])
  end.

Definition validate_workflow (file_path : string) (ld : loaded) (out : stdout)
  : bool * stdout :=
  match ld with
  | Loaded workflow =>
      match check_workflow workflow with
      | inr errors => report file_path (map message errors) out
      | inl e => (false, out ++ [PrintException file_path e])
      end
  | RaisedYAMLError e => (false, out ++ [PrintYAMLError file_path e])
  | RaisedException e => (false, out ++ [PrintException file_path e])
  end.

(* ================================================================== *)
(** ** The documents of the specification's scenarios *)
(* ================================================================== *)

Definition build_job : pyval :=
  PDict [(KStr "runs-on", PStr "ubuntu"); (KStr "steps", PList [PStr "checkout"])].

(** Scenario A as PyYAML loads it: the key [on] is read as [True]. *)
Definition scenario_A : pyval :=
  PDict [(KStr "name", PStr "CI");
         (KBool true, PDict [(KStr "push", PDict [])]);
         (KStr "jobs", PDict [(KStr "build", build_job)])].

Definition scenario_B : pyval := PDict [(KStr "jobs", PDict [])].

Definition scenario_C : pyval :=
  PDict [(KStr "name", PStr "CI");
         (KBool true, PStr "push");
         (KStr "jobs", PDict [(KStr "build", PDict [(KStr "steps", PList [PStr "a"; PStr "b"])])])].

Definition with_trigger (on_value : pyval) : pyval :=
  PDict [(KStr "name", PStr "CI");
         (KBool true, on_value);
         (KStr "jobs", PDict [(KStr "build", build_job)])].

Definition empty_jobs_document : pyval :=
  PDict [(KStr "name", PStr "CI");
         (KBool true, PDict [(KStr "push", PDict [])]);
         (KStr "jobs", PDict [])].

Definition null_steps_document : pyval :=
  PDict [(KStr "name", PStr "CI");
         (KBool true, PStr "push");
         (KStr "jobs",
          PDict [(KStr "build",
                  PDict [(KStr "runs-on", PStr "ubuntu"); (KStr "steps", PNone)])])].

Definition scalar_job_document : pyval :=
  PDict [(KStr "name", PStr "CI");
         (KBool true, PStr "push");
         (KStr "jobs", PDict [(KStr "lint", PStr "todo"); (KStr "build", build_job)])].

(* ================================================================== *)
(** ** The report, block by block *)
(* ================================================================== *)

(** The contribution of each block of checks to [errors] when the document is
    a dictionary [d].  [check_workflow_dict] below proves that the script's
    list is their concatenation. *)
Section Blocks.

Variable d : pydict.

Definition name_findings : list finding :=
  match Py.lookup d (KStr "name") with
  | None => [MissingName]
  | Some _ => []
  end.

(** The value bound to [on_field]. *)
Definition on_field : pyval :=
  let a := match Py.lookup d (KStr "on") with Some v => v | None => PNone end in
  if Py.truthy a then a
  else match Py.lookup d (KBool true) with Some v => v | None => PNone end.

Definition jobs_findings : list finding :=
  match Py.lookup d (KStr "jobs") with
  | None => [MissingJobs]
  | Some jobs => if Py.truthy jobs then [] else [EmptyJobs]
  end.

(** The items the job loop iterates over. *)
Definition job_items : pydict :=
  match Py.lookup d (KStr "jobs") with
  | Some (PDict js) => js
  | _ => []
  end.

(** [workflow["jobs"].items()] does not raise. *)
Definition jobs_iterable : bool :=
  match Py.lookup d (KStr "jobs") with
  | None => true
  | Some jobs => Py.is_dict jobs
  end.

End Blocks.

Definition on_findings (on_value : pyval) : list finding :=
  if Py.truthy on_value then [] else [MissingOn].

Definition trigger_findings (on_value : pyval) : list finding :=
  match on_value with
  | PDict triggers => flat_map (trigger_step []) triggers
  | _ => []
  end.

Definition job_findings (item : pykey * pyval) : list finding :=
  job_step [] item.

(** The report of a dictionary document when [on_value] is taken as the
    trigger field. *)
Definition findings_with_trigger (d : pydict) (on_value : pyval) : list finding :=
  name_findings d ++ on_findings on_value ++ jobs_findings d
    ++ trigger_findings on_value ++ flat_map job_findings (job_items d).

Definition findings (d : pydict) : list finding :=
  findings_with_trigger d (on_field d).

(** The lines one call prints. *)
Definition printed (file_path : string) (ld : loaded) : list line :=
  match ld with
  | Loaded workflow =>
      match check_workflow workflow with
      | inr [] => [PrintValid file_path]
      | inr errors => PrintInvalid file_path :: map PrintError (map message errors)
      | inl e => [PrintException file_path e]
      end
  | RaisedYAMLError e => [PrintYAMLError file_path e]
  | RaisedException e => [PrintException file_path e]
  end.

(* ================================================================== *)
(** ** Classification of findings *)
(* ================================================================== *)

Inductive severity : Type := Error | Warning.

(** Severity as the specification's rule list assigns it: an empty trigger
    configuration (rule 4) is a Warning, every other rule reports an Error.
    The script itself keeps a single list and has no severity. *)
Definition spec_severity (f : finding) : severity :=
  match f with
  | EmptyTriggerConfiguration _ | EmptyTriggerList _ => Warning
  | _ => Error
  end.

(** Rule number in the specification's list (section 4.1). *)
Definition spec_rule (f : finding) : nat :=
  match f with
  | MissingName => 1
  | MissingOn => 2
  | EmptyOn => 3
  | EmptyTriggerConfiguration _ | EmptyTriggerList _ => 4
  | MissingJobs => 5
  | EmptyJobs => 6
  | JobNotDict _ | JobMissingRunsOn _ | JobMissingSteps _ | JobEmptySteps _ => 7
  end.

(** Position of the block that appends the finding in the script. *)
Definition block (f : finding) : nat :=
  match f with
  | MissingName => 1
  | MissingOn | EmptyOn => 2
  | MissingJobs | EmptyJobs => 3
  | EmptyTriggerConfiguration _ | EmptyTriggerList _ => 4
  | JobNotDict _ | JobMissingRunsOn _ | JobMissingSteps _ | JobEmptySteps _ => 5
  end.

Definition in_order (rank : finding -> nat) (errors : list finding) : Prop :=
  StronglySorted (fun f g => rank f <= rank g) errors.

(** The job a finding is about, if any. *)
Definition job_of (f : finding) : option string :=
  match f with
  | JobNotDict j | JobMissingRunsOn j | JobMissingSteps j | JobEmptySteps j => Some j
  | _ => None
  end.

Definition is_job_finding (f : finding) : bool :=
  match job_of f with Some _ => true | None => false end.

Definition is_trigger_finding (f : finding) : bool :=
  match f with
  | EmptyTriggerConfiguration _ | EmptyTriggerList _ => true
  | _ => false
  end.

Definition scoped_to (job_name : string) (f : finding) : bool :=
  match job_of f with
  | Some j => String.eqb j job_name
  | None => false
  end.

Definition job_names (js : pydict) : list string :=
  map (fun item => Py.str (fst item)) js.

(** The characters of a string from the last to the first; messages that
    differ in their endings differ here at a fixed position. *)
Definition reversed (s : string) : list ascii := rev (list_ascii_of_string s).

(** The properties of the specification that the script does not have, as
    predicates on a document. *)
Definition invalid_iff_error_severity (workflow : pyval) : Prop :=
  forall file_path out errors,
    check_workflow workflow = inr errors ->
    (fst (validate_workflow file_path (Loaded workflow) out) = false
     <-> exists f, In f errors /\ spec_severity f = Error).


Definition empty_steps_iff_empty_sequence (job_name : pykey) (cfg : pydict) : Prop :=
  In (JobEmptySteps (Py.str job_name)) (job_findings (job_name, PDict cfg))
  <-> Py.lookup cfg (KStr "steps") = Some (PList []).

(* ================================================================== *)
(** ** The command line driver *)
(* ================================================================== *)

(** What [main] writes: its own usage line, or the lines of the calls to
    [validate_workflow]. *)
Inductive console_line : Type :=
| PrintUsage
| FromValidate (l : line).

(** One iteration of the loop of [main]: validate the file, and clear
    [all_valid] when the call returns [False]. *)
Definition main_step (load : string -> loaded) (st : bool * stdout)
  (file_path : string) : bool * stdout :=
  let (all_valid, out) := st in
  let (ok, out) := validate_workflow file_path (load file_path) out in
  (if negb ok then false else all_valid, out).

(** [main], for the command line [argv] (program name first); [load] gives
    what opening and loading each path yields.  The result is the exit status
    of the process and what was printed. *)
Definition main (argv : list string) (load : string -> loaded)
  : nat * list console_line :=
  if (List.length argv <? 2)%nat then (1, [PrintUsage])          (* sys.exit(1) *)
  else
    let all_valid := true in
    let (all_valid, out) :=
      fold_left (main_step load) (skipn 1 argv) (all_valid, []) in
    if negb all_valid then (1, map FromValidate out)   (* sys.exit(1) *)
    else (0, map FromValidate out).

(* ================================================================== *)
(** ** Documents without findings *)
(* ================================================================== *)

(** The triggers the configuration loop visits. *)
Definition triggers_of (on_value : pyval) : pydict :=
  match on_value with
  | PDict triggers => triggers
  | _ => []
  end.

(** A trigger the loop says nothing about: its configuration is neither an
    empty mapping nor an empty list. *)
Definition trigger_ok (item : pykey * pyval) : bool :=
  match snd item with
  | PDict [] | PList [] => false
  | _ => true
  end.

(** A job the loop says nothing about: a mapping with the key [runs-on] and
    a [steps] value that is true in a boolean context. *)
Definition job_ok (item : pykey * pyval) : bool :=
  match snd item with
  | PDict cfg =>
      match Py.lookup cfg (KStr "runs-on"), Py.lookup cfg (KStr "steps") with
      | Some _, Some steps => Py.truthy steps
      | _, _ => false
      end
  | _ => false
  end.

Definition well_formed (d : pydict) : bool :=
  match Py.lookup d (KStr "name") with Some _ => true | None => false end
  && Py.truthy (on_field d)
  && forallb trigger_ok (triggers_of (on_field d))
  && match Py.lookup d (KStr "jobs") with
     | Some (PDict (job :: js)) => forallb job_ok (job :: js)
     | _ => false
     end.

Definition accepted (ld : loaded) : bool :=
  match ld with
  | Loaded (PDict d) => well_formed d
  | _ => false
  end.


Definition valid_document : pyval :=
  PDict [(KStr "name", PStr "CI");
         (KBool true, PDict [(KStr "push", PNone)]);
         (KStr "jobs", PDict [(KStr "build", build_job)])].


(* ================================================================== *)
(** ** Scenarios, evaluated *)
(* ================================================================== *)

Example scenario_A_report :
  check_workflow scenario_A = inr [EmptyTriggerConfiguration "push"].
Proof. reflexivity. Qed.

Example scenario_B_report :
  check_workflow scenario_B = inr [MissingName; MissingOn; EmptyJobs].
Proof. reflexivity. Qed.

Example scenario_C_report :
  check_workflow scenario_C = inr [JobMissingRunsOn "build"].
Proof. reflexivity. Qed.

(* ================================================================== *)
(** ** Loops as concatenations *)
(* ================================================================== *)

Section Appending.

Variables (A B : Type) (step : list B -> A -> list B).
Hypothesis step_appends : forall acc x, step acc x = acc ++ step [] x.

Lemma fold_left_appends (l : list A) (acc : list B) :
  fold_left step l acc = acc ++ flat_map (step []) l.
Proof.
  revert acc; induction l as [|x l IH]; intros acc; simpl.
  - now rewrite app_nil_r.
  - rewrite IH, (step_appends acc x). now rewrite <- app_assoc.
Qed.

End Appending.

Lemma trigger_step_appends (acc : list finding) (item : pykey * pyval) :
  trigger_step acc item = acc ++ trigger_step [] item.
Proof.
  destruct item as [trigger config]; unfold trigger_step.
  destruct (Py.is_dict config && negb (Py.truthy config)); [reflexivity|].
  destruct (Py.is_list config && negb (Py.truthy config)); [reflexivity|].
  now rewrite app_nil_r.
Qed.

Lemma job_step_appends (acc : list finding) (item : pykey * pyval) :
  job_step acc item = acc ++ job_step [] item.
Proof.
  destruct item as [job_name job_config]; unfold job_step.
  destruct job_config; try reflexivity.
  destruct (Py.lookup d (KStr "runs-on")); destruct (Py.lookup d (KStr "steps")) as [steps|];
    try destruct (negb (Py.truthy steps));
    simpl; rewrite ?app_nil_r, <- ?app_assoc; reflexivity.
Qed.

Lemma trigger_loop (triggers : pydict) (acc : list finding) :
  fold_left trigger_step triggers acc = acc ++ trigger_findings (PDict triggers).
Proof. apply fold_left_appends, trigger_step_appends. Qed.

Lemma job_loop (js : pydict) (acc : list finding) :
  fold_left job_step js acc = acc ++ flat_map job_findings js.
Proof. apply fold_left_appends, job_step_appends. Qed.

Lemma trigger_findings_falsy (v : pyval) :
  Py.truthy v = false -> trigger_findings v = [].
Proof. destruct v as [| | | | |[|]]; simpl; congruence. Qed.

(* ================================================================== *)
(** ** The shape of the report *)
(* ================================================================== *)

Lemma on_lookup_dict (d : pydict) : on_lookup (PDict d) = inr (on_field d).
Proof.
  unfold on_lookup, on_field; simpl.
  destruct (Py.truthy _); reflexivity.
Qed.

(** On a dictionary the checks run to the end unless [jobs] is bound to
    something without [items]. *)
Lemma check_workflow_dict (d : pydict) :
  check_workflow (PDict d) =
  match Py.lookup d (KStr "jobs") with
  | None => inr (findings d)
  | Some (PDict _) => inr (findings d)
  | Some jobs => inl (AttributeError (Py.type_name jobs) "items")
  end.
Proof.
  unfold check_workflow. rewrite on_lookup_dict.
  unfold findings, findings_with_trigger, name_findings, jobs_findings,
    job_items, on_findings.
  cbn [Py.contains Py.getitem Py.bind Py.ret Py.items app].
  set (v := on_field d).
  assert (Htrig : forall acc,
             (if Py.truthy v
              then match v with
                   | PDict triggers => fold_left trigger_step triggers acc
                   | _ => acc
                   end
              else acc) = acc ++ trigger_findings v).
  { intros acc. destruct (Py.truthy v) eqn:Hv.
    - destruct v; simpl; rewrite ?app_nil_r; try reflexivity. apply trigger_loop.
    - now rewrite trigger_findings_falsy, app_nil_r. }
  destruct (Py.lookup d (KStr "name")); destruct (Py.lookup d (KStr "jobs")) as [jobs|];
    cbn [negb Py.bind Py.ret Py.getitem Py.items app];
    try (rewrite Htrig; destruct (Py.truthy v); simpl;
         rewrite ?app_nil_r; reflexivity);
    destruct jobs as [| | | | |js]; cbn [negb Py.bind Py.ret Py.getitem Py.items Py.raise Py.type_name];
    try reflexivity;
    rewrite job_loop, Htrig;
    destruct (Py.truthy v), js; simpl; rewrite ?app_nil_r, <- ?app_assoc; reflexivity.
Qed.

(** Anything but a dictionary makes the first or the second check raise. *)
Lemma check_workflow_not_dict (w : pyval) :
  Py.is_dict w = false ->
  check_workflow w =
  inl (match w with
       | PStr _ | PList _ => AttributeError (Py.type_name w) "get"
       | _ => TypeError (Py.type_name w)
       end).
Proof. destruct w; simpl; try discriminate; intros _; reflexivity. Qed.

Lemma check_workflow_completes (w : pyval) (errors : list finding) :
  check_workflow w = inr errors <->
  exists d, w = PDict d /\ jobs_iterable d = true /\ errors = findings d.
Proof.
  split.
  - destruct w as [| | | | |d];
      try (rewrite check_workflow_not_dict by reflexivity; discriminate).
    rewrite check_workflow_dict. unfold jobs_iterable.
    intros H; exists d.
    destruct (Py.lookup d (KStr "jobs")) as [[| | | | |js]|]; try discriminate;
      (split; [reflexivity|split; [reflexivity|congruence]]).
  - intros (d & -> & Hj & ->). rewrite check_workflow_dict.
    unfold jobs_iterable in Hj.
    destruct (Py.lookup d (KStr "jobs")) as [[| | | | |js]|]; try discriminate; reflexivity.
Qed.

(* ================================================================== *)
(** ** Printing *)
(* ================================================================== *)

Lemma print_errors (errors : list string) (out : stdout) :
  fold_left (fun o error => o ++ [PrintError error]) errors out
  = out ++ map PrintError errors.
Proof.
  revert out; induction errors as [|e errors IH]; intros out; simpl.
  - now rewrite app_nil_r.
  - rewrite IH, <- app_assoc. reflexivity.
Qed.

(** A call only appends to the output, and what it appends and returns does
    not depend on what was printed before. *)
Lemma validate_workflow_appends (file_path : string) (ld : loaded) (out : stdout) :
  validate_workflow file_path ld out =
  (fst (validate_workflow file_path ld []), out ++ printed file_path ld).
Proof.
  unfold validate_workflow, printed, report.
  destruct ld as [w|e|e]; try reflexivity.
  destruct (check_workflow w) as [e|[|f errors]]; try reflexivity.
  cbn [map fst]. rewrite print_errors, <- app_assoc. reflexivity.
Qed.

(* ================================================================== *)
(** ** Messages determine findings *)
(* ================================================================== *)

Lemma list_ascii_of_string_append (s1 s2 : string) :
  list_ascii_of_string (s1 ++ s2) = list_ascii_of_string s1 ++ list_ascii_of_string s2.
Proof. induction s1 as [|c s1 IH]; simpl; [reflexivity|now rewrite IH]. Qed.

Lemma reversed_append (s1 s2 : string) :
  reversed (s1 ++ s2) = reversed s2 ++ reversed s1.
Proof. unfold reversed. now rewrite list_ascii_of_string_append, rev_app_distr. Qed.

Lemma reversed_inj (s1 s2 : string) : reversed s1 = reversed s2 -> s1 = s2.
Proof.
  unfold reversed; intros H.
  apply (f_equal (@rev ascii)) in H. rewrite !rev_involutive in H.
  apply (f_equal string_of_list_ascii) in H.
  now rewrite !string_of_list_ascii_of_string in H.
Qed.

(** Same frame around two names: the names are equal. *)
Lemma framed_inj (pre suf a b : string) :
  reversed (pre ++ a ++ suf) = reversed (pre ++ b ++ suf) -> a = b.
Proof.
  rewrite !reversed_append, <- !app_assoc. intros H.
  apply app_inv_head, app_inv_tail in H. now apply reversed_inj.
Qed.

Ltac by_ending H :=
  apply (f_equal reversed) in H;
  first
    [ apply framed_inj in H; now subst
    | rewrite ?reversed_append in H; cbn in H; discriminate H ].

(** The list of strings the script builds loses nothing with respect to the
    list of findings. *)
Lemma message_injective (f g : finding) : message f = message g -> f = g.
Proof.
  intros H.
  destruct f, g; try reflexivity; try (simpl in H; discriminate H);
    unfold message in H; by_ending H.
Qed.


(* ================================================================== *)
(** ** Findings of the job loop *)
(* ================================================================== *)

(** What one iteration appends, by the shape of the job. *)
Lemma job_findings_not_dict (job_name : pykey) (job_config : pyval) :
  Py.is_dict job_config = false ->
  job_findings (job_name, job_config) = [JobNotDict (Py.str job_name)].
Proof. destruct job_config; simpl; try discriminate; reflexivity. Qed.

Lemma job_findings_dict (job_name : pykey) (cfg : pydict) :
  job_findings (job_name, PDict cfg) =
  (match Py.lookup cfg (KStr "runs-on") with
   | None => [JobMissingRunsOn (Py.str job_name)]
   | Some _ => []
   end) ++
  (match Py.lookup cfg (KStr "steps") with
   | None => [JobMissingSteps (Py.str job_name)]
   | Some steps =>
       if Py.truthy steps then [] else [JobEmptySteps (Py.str job_name)]
   end).
Proof.
  unfold job_findings, job_step.
  destruct (Py.lookup cfg (KStr "runs-on")); destruct (Py.lookup cfg (KStr "steps")) as [s|];
    try destruct (Py.truthy s); reflexivity.
Qed.

Lemma job_findings_scope (item : pykey * pyval) (f : finding) :
  In f (job_findings item) -> job_of f = Some (Py.str (fst item)).
Proof.
  destruct item as [k v]. destruct (Py.is_dict v) eqn:Hd.
  - destruct v; try discriminate. rewrite job_findings_dict.
    destruct (Py.lookup d (KStr "runs-on")); destruct (Py.lookup d (KStr "steps")) as [s|];
      try destruct (Py.truthy s); simpl; intuition (subst; reflexivity).
  - rewrite job_findings_not_dict by assumption.
    simpl; intuition (subst; reflexivity).
Qed.

Lemma filter_own_job (item : pykey * pyval) :
  filter (scoped_to (Py.str (fst item))) (job_findings item) = job_findings item.
Proof.
  apply forallb_filter_id, forallb_forall. intros f Hf.
  unfold scoped_to. rewrite (job_findings_scope _ _ Hf). apply String.eqb_refl.
Qed.

Lemma filter_other_jobs (name : string) (js : pydict) :
  ~ In name (job_names js) ->
  filter (scoped_to name) (flat_map job_findings js) = [].
Proof.
  induction js as [|item js IH]; simpl; intros Hn; [reflexivity|].
  rewrite filter_app, IH by tauto. rewrite app_nil_r.
  destruct (filter (scoped_to name) (job_findings item)) as [|f l] eqn:Hf; [reflexivity|].
  assert (Hin : In f (filter (scoped_to name) (job_findings item)))
    by (rewrite Hf; now left).
  apply filter_In in Hin as [Hin Hs].
  unfold scoped_to in Hs. rewrite (job_findings_scope _ _ Hin) in Hs.
  apply String.eqb_eq in Hs. tauto.
Qed.

(** With job names that print differently, the findings about one job are the
    ones its own iteration appended. *)
Lemma filter_job_loop (js : pydict) (item : pykey * pyval) :
  NoDup (job_names js) ->
  In item js ->
  filter (scoped_to (Py.str (fst item))) (flat_map job_findings js)
  = job_findings item.
Proof.
  induction js as [|item' js IH]; simpl; [tauto|].
  intros Hnd Hin. inversion Hnd as [|? ? Hnotin Hnd']; subst.
  rewrite filter_app. destruct Hin as [->|Hin].
  - rewrite filter_own_job, filter_other_jobs by assumption. apply app_nil_r.
  - rewrite IH by assumption.
    assert (Hne : Py.str (fst item') <> Py.str (fst item)).
    { intros Heq. apply Hnotin. rewrite Heq.
      unfold job_names. now apply (in_map (fun i => Py.str (fst i))). }
    replace (filter (scoped_to (Py.str (fst item))) (job_findings item')) with (@nil finding);
      [reflexivity|].
    symmetry. destruct (filter _ (job_findings item')) as [|f l] eqn:Hf; [reflexivity|].
    assert (Hin' : In f (filter (scoped_to (Py.str (fst item))) (job_findings item')))
      by (rewrite Hf; now left).
    apply filter_In in Hin' as [Hin' Hs].
    unfold scoped_to in Hs. rewrite (job_findings_scope _ _ Hin') in Hs.
    apply String.eqb_eq in Hs. contradiction.
Qed.

(** The blocks before the job loop say nothing about a job. *)
Lemma trigger_findings_no_job (v : pyval) (f : finding) :
  In f (trigger_findings v) -> is_trigger_finding f = true.
Proof.
  destruct v; simpl; try tauto.
  intros H; apply in_flat_map in H as ([t c] & _ & H).
  unfold trigger_step in H.
  destruct (Py.is_dict c && negb (Py.truthy c));
    [|destruct (Py.is_list c && negb (Py.truthy c))];
    simpl in H; intuition (subst; reflexivity).
Qed.

Lemma filter_nil_when (A : Type) (p : A -> bool) (l : list A) :
  (forall x, In x l -> p x = false) -> filter p l = [].
Proof.
  induction l as [|x l IH]; simpl; intros H; [reflexivity|].
  rewrite (H x) by now left. apply IH. intros; apply H; now right.
Qed.

Lemma filter_id_when (A : Type) (p : A -> bool) (l : list A) :
  (forall x, In x l -> p x = true) -> filter p l = l.
Proof. intros H. now apply forallb_filter_id, forallb_forall. Qed.

Lemma filter_findings_jobs (p : finding -> bool) (d : pydict) :
  (forall f, is_job_finding f = false -> p f = false) ->
  filter p (findings d) = filter p (flat_map job_findings (job_items d)).
Proof.
  intros Hp. unfold findings, findings_with_trigger.
  rewrite !filter_app.
  rewrite (filter_nil_when _ p (name_findings d)), (filter_nil_when _ p (on_findings _)),
    (filter_nil_when _ p (jobs_findings d)), (filter_nil_when _ p (trigger_findings _));
    try reflexivity.
  - intros f Hf. apply Hp. apply trigger_findings_no_job in Hf.
    destruct f; try discriminate; reflexivity.
  - unfold jobs_findings. intros f Hf. apply Hp.
    destruct (Py.lookup d (KStr "jobs")) as [j|]; [destruct (Py.truthy j)|];
      simpl in Hf; intuition (subst; reflexivity).
  - unfold on_findings. intros f Hf. apply Hp.
    destruct (Py.truthy (on_field d)); simpl in Hf; intuition (subst; reflexivity).
  - unfold name_findings. intros f Hf. apply Hp.
    destruct (Py.lookup d (KStr "name")); simpl in Hf; intuition (subst; reflexivity).
Qed.

Lemma scoped_to_job_only (name : string) (f : finding) :
  is_job_finding f = false -> scoped_to name f = false.
Proof. unfold is_job_finding, scoped_to. destruct (job_of f); [discriminate|reflexivity]. Qed.

(* ================================================================== *)
(** ** Validity and the findings of the report *)
(* ================================================================== *)

(** C1, as stated, fails: Scenario A's report is the single finding about the
    empty [push] configuration, which the specification ranks as a Warning,
    and the script still returns [False] for it.  So "invalid exactly when
    some Error-severity finding is reported" does not hold of Scenario A. *)
Lemma scenario_A_invalid_without_error :
  ~ invalid_iff_error_severity scenario_A.
Proof.
  intros H.
  destruct (H "ci.yml" [] _ scenario_A_report) as [Himp _].
  destruct (Himp eq_refl) as (f & [<-|[]] & Hsev).
  discriminate Hsev.
Qed.

(** C1, amended: when the checks run to the end, the script returns [False]
    exactly when the list of findings is not empty, whatever the findings
    are; it prints one line per finding under a header, or the single
    "Valid" line when there is none. *)
Theorem invalid_iff_some_finding
  (file_path : string) (workflow : pyval) (out : stdout) (errors : list finding) :
  check_workflow workflow = inr errors ->
  (fst (validate_workflow file_path (Loaded workflow) out) = false <-> errors <> [])
  /\ snd (validate_workflow file_path (Loaded workflow) out)
     = out ++ match errors with
              | [] => [PrintValid file_path]
              | _ => PrintInvalid file_path :: map PrintError (map message errors)
              end.
Proof.
  intros H. rewrite validate_workflow_appends.
  unfold validate_workflow, printed. rewrite H.
  destruct errors as [|f errors]; simpl; split; try reflexivity;
    split; intros; congruence.
Qed.

Lemma invalid_iff_some_finding_witness :
  check_workflow scenario_A = inr [EmptyTriggerConfiguration "push"]
  /\ (fst (validate_workflow "ci.yml" (Loaded scenario_A) []) = false
      <-> [EmptyTriggerConfiguration "push"] <> [])
  /\ snd (validate_workflow "ci.yml" (Loaded scenario_A) [])
     = [PrintInvalid "ci.yml"; PrintError "Empty push trigger configuration"].
Proof.
  split; [reflexivity|].
  apply (invalid_iff_some_finding "ci.yml" scenario_A []). reflexivity.
Defined.

(* ================================================================== *)
(** ** The trigger field *)
(* ================================================================== *)

(** C2: a trigger field that is present but empty.  The script has a branch
    for the message "Empty on field - no triggers defined", but it tests the
    condition of the branch before it, so each of these documents is reported
    with the message for a missing field. *)
Theorem empty_trigger_reported_as_missing :
  Forall (fun on_value => check_workflow (with_trigger on_value) = inr [MissingOn])
         [PDict []; PList []; PStr ""; PNone]
  /\ validate_workflow "ci.yml" (Loaded (with_trigger (PDict []))) []
     = (false, [PrintInvalid "ci.yml";
                PrintError "Missing required field: on (triggers)"]).
Proof. split; [repeat constructor|reflexivity]. Qed.



(** C8: the trigger field is looked up under the key "on" and under the key
    [True].  When one of the two is present and the other is not, the report
    is the one obtained with the value found as the trigger field; when
    neither is present, the field is reported missing. *)
Theorem trigger_located_under_either_key
  (d : pydict) (errors : list finding) :
  check_workflow (PDict d) = inr errors ->
  (forall v, Py.lookup d (KStr "on") = Some v -> Py.lookup d (KBool true) = None ->
             errors = findings_with_trigger d v)
  /\ (forall v, Py.lookup d (KStr "on") = None -> Py.lookup d (KBool true) = Some v ->
                on_lookup (PDict d) = inr v /\ errors = findings_with_trigger d v)
  /\ (Py.lookup d (KStr "on") = None -> Py.lookup d (KBool true) = None ->
      In MissingOn errors).
Proof.
  intros H. apply check_workflow_completes in H as (d' & Hd & _ & ->).
  injection Hd as <-.
  split; [|split].
  - intros v Hon Halias. unfold findings, on_field. rewrite Hon, Halias.
    destruct (Py.truthy v) eqn:Hv; [reflexivity|].
    unfold findings_with_trigger, on_findings. simpl. rewrite Hv.
    now rewrite (trigger_findings_falsy v Hv).
  - intros v Hon Halias. rewrite on_lookup_dict.
    unfold findings, on_field. rewrite Hon, Halias. now split.
  - intros Hon Halias. unfold findings, findings_with_trigger, on_field, on_findings.
    rewrite Hon, Halias. cbn [Py.truthy]. rewrite !in_app_iff. right; left; now left.
Qed.

Lemma trigger_located_under_either_key_witness :
  check_workflow scenario_A = inr [EmptyTriggerConfiguration "push"]
  /\ [EmptyTriggerConfiguration "push"]
     = findings_with_trigger
         [(KStr "name", PStr "CI");
          (KBool true, PDict [(KStr "push", PDict [])]);
          (KStr "jobs", PDict [(KStr "build", build_job)])]
         (PDict [(KStr "push", PDict [])]).
Proof.
  split; [reflexivity|].
  destruct (@trigger_located_under_either_key _ _ scenario_A_report) as (_ & Halias & _).
  apply (Halias (PDict [(KStr "push", PDict [])])); reflexivity.
Defined.

(* ================================================================== *)
(** ** Order of the findings *)
(* ================================================================== *)

Lemma name_findings_in (d : pydict) (f : finding) :
  In f (name_findings d) -> f = MissingName.
Proof.
  unfold name_findings. destruct (Py.lookup d (KStr "name")); simpl; intuition.
Qed.

Lemma on_findings_in (v : pyval) (f : finding) :
  In f (on_findings v) -> f = MissingOn.
Proof. unfold on_findings. destruct (Py.truthy v); simpl; intuition. Qed.

Lemma jobs_findings_in (d : pydict) (f : finding) :
  In f (jobs_findings d) -> f = MissingJobs \/ f = EmptyJobs.
Proof.
  unfold jobs_findings.
  destruct (Py.lookup d (KStr "jobs")) as [j|]; [destruct (Py.truthy j)|];
    simpl; intuition.
Qed.

Lemma job_loop_in (js : pydict) (f : finding) :
  In f (flat_map job_findings js) -> is_job_finding f = true.
Proof.
  intros H; apply in_flat_map in H as (item & _ & H).
  unfold is_job_finding. now rewrite (job_findings_scope _ _ H).
Qed.

(** A block of findings of one rank, followed by findings of that rank or
    later, keeps the list in order. *)
Lemma in_order_block (rank : finding -> nat) (n : nat) (l rest : list finding) :
  (forall f, In f l -> rank f = n) ->
  (forall g, In g rest -> n <= rank g) ->
  in_order rank rest ->
  in_order rank (l ++ rest).
Proof.
  intros Hl Hrest Hsorted. induction l as [|a l IH]; simpl; [assumption|].
  constructor.
  - apply IH. intros f Hf; apply Hl; now right.
  - apply Forall_forall. intros g Hg. rewrite (Hl a) by now left.
    apply in_app_or in Hg as [Hg|Hg].
    + rewrite (Hl g) by now right. apply le_n.
    + now apply Hrest.
Qed.

Lemma filter_flat_map_each (A B : Type) (p : B -> bool) (f : A -> list B) (l : list A) :
  filter p (flat_map f l) = flat_map (fun x => filter p (f x)) l.
Proof.
  induction l as [|x l IH]; simpl; [reflexivity|].
  now rewrite filter_app, IH.
Qed.

(** C3, as stated, fails: with an empty [jobs] mapping and an empty [push]
    configuration, the finding about [jobs] (rule 6) is appended before the
    finding about the trigger configuration (rule 4). *)
Lemma trigger_configuration_after_jobs :
  check_workflow empty_jobs_document
  = inr [EmptyJobs; EmptyTriggerConfiguration "push"]
  /\ ~ in_order spec_rule [EmptyJobs; EmptyTriggerConfiguration "push"].
Proof.
  split; [reflexivity|].
  intros H. inversion H as [|f l _ Hall]; subst.
  inversion Hall as [|g l' Hle _]; subst.
  simpl in Hle. lia.
Qed.

(** C3, amended: the findings come in the order of the script's blocks: name,
    trigger field, [jobs] presence and emptiness, then the trigger
    configurations in the order of the triggers, then the jobs in the order
    they are declared, each job with its own findings together; so for each
    kind of job finding the jobs appear in declaration order. *)
Theorem report_in_block_order (d : pydict) (errors : list finding) :
  check_workflow (PDict d) = inr errors ->
  in_order block errors
  /\ filter is_trigger_finding errors = trigger_findings (on_field d)
  /\ filter is_job_finding errors = flat_map job_findings (job_items d)
  /\ (forall rule : finding -> bool,
         (forall f, is_job_finding f = false -> rule f = false) ->
         filter rule errors
         = flat_map (fun item => filter rule (job_findings item)) (job_items d)).
Proof.
  intros H. apply check_workflow_completes in H as (d' & Hd & _ & ->).
  injection Hd as <-.
  split; [|split; [|split]].
  - unfold findings, findings_with_trigger.
    apply in_order_block with (n := 1).
    { intros f Hf. now rewrite (name_findings_in _ _ Hf). }
    { intros g Hg. rewrite !in_app_iff in Hg.
      destruct Hg as [Hg|[Hg|[Hg|Hg]]].
      - rewrite (on_findings_in _ _ Hg). simpl; lia.
      - destruct (jobs_findings_in _ _ Hg) as [->| ->]; simpl; lia.
      - apply trigger_findings_no_job in Hg. destruct g; try discriminate; simpl; lia.
      - apply job_loop_in in Hg. destruct g; try discriminate; simpl; lia. }
    apply in_order_block with (n := 2).
    { intros f Hf. now rewrite (on_findings_in _ _ Hf). }
    { intros g Hg. rewrite !in_app_iff in Hg.
      destruct Hg as [Hg|[Hg|Hg]].
      - destruct (jobs_findings_in _ _ Hg) as [->| ->]; simpl; lia.
      - apply trigger_findings_no_job in Hg. destruct g; try discriminate; simpl; lia.
      - apply job_loop_in in Hg. destruct g; try discriminate; simpl; lia. }
    apply in_order_block with (n := 3).
    { intros f Hf. now destruct (jobs_findings_in _ _ Hf) as [->| ->]. }
    { intros g Hg. rewrite !in_app_iff in Hg.
      destruct Hg as [Hg|Hg].
      - apply trigger_findings_no_job in Hg. destruct g; try discriminate; simpl; lia.
      - apply job_loop_in in Hg. destruct g; try discriminate; simpl; lia. }
    apply in_order_block with (n := 4).
    { intros f Hf. apply trigger_findings_no_job in Hf.
      destruct f; try discriminate; reflexivity. }
    { intros g Hg. apply job_loop_in in Hg.
      destruct g; try discriminate; simpl; lia. }
    rewrite <- (app_nil_r (flat_map job_findings (job_items d))).
    apply in_order_block with (n := 5).
    { intros f Hf. apply job_loop_in in Hf. destruct f; try discriminate; reflexivity. }
    { intros g []. }
    constructor.
  - unfold findings, findings_with_trigger. rewrite !filter_app.
    rewrite (filter_nil_when _ _ (name_findings d)), (filter_nil_when _ _ (on_findings _)),
      (filter_nil_when _ _ (jobs_findings d)), (filter_nil_when _ _ (flat_map _ _)),
      (filter_id_when _ _ (trigger_findings _)).
    + now rewrite app_nil_r.
    + apply trigger_findings_no_job.
    + intros f Hf. apply job_loop_in in Hf. destruct f; try discriminate; reflexivity.
    + intros f Hf. now destruct (jobs_findings_in _ _ Hf) as [->| ->].
    + intros f Hf. now rewrite (on_findings_in _ _ Hf).
    + intros f Hf. now rewrite (name_findings_in _ _ Hf).
  - rewrite filter_findings_jobs by auto.
    apply filter_id_when, job_loop_in.
  - intros rule Hrule. rewrite filter_findings_jobs by assumption.
    apply filter_flat_map_each.
Qed.

Lemma report_in_block_order_witness :
  check_workflow empty_jobs_document
  = inr [EmptyJobs; EmptyTriggerConfiguration "push"]
  /\ in_order block [EmptyJobs; EmptyTriggerConfiguration "push"].
Proof.
  split; [reflexivity|].
  apply (@report_in_block_order
           [(KStr "name", PStr "CI");
            (KBool true, PDict [(KStr "push", PDict [])]);
            (KStr "jobs", PDict [])]
           [EmptyJobs; EmptyTriggerConfiguration "push"]).
  reflexivity.
Defined.

(* ================================================================== *)
(** ** Exceptions and parse failures *)
(* ================================================================== *)



(** C5: when loading raises a YAML error, the call prints the single line that
    carries the error text and returns [False]; no check runs, no line for a
    finding is printed, and what is printed differs from the output for any
    loaded document. *)
Theorem yaml_error_short_circuits (file_path e : string) (out : stdout) :
  validate_workflow file_path (RaisedYAMLError e) out
  = (false, out ++ [PrintYAMLError file_path e])
  /\ (forall error,
         ~ In (PrintError error)
              (snd (validate_workflow file_path (RaisedYAMLError e) [])))
  /\ (forall workflow,
         snd (validate_workflow file_path (Loaded workflow) [])
         <> snd (validate_workflow file_path (RaisedYAMLError e) [])).
Proof.
  split; [reflexivity|split].
  - intros error [H|[]]. discriminate H.
  - intros workflow.
    rewrite (validate_workflow_appends file_path (Loaded workflow) []).
    unfold printed. simpl.
    destruct (check_workflow workflow) as [x|[|f errors]]; discriminate.
Qed.

(** C9: the result of a call is a function of the file path and of what was
    loaded.  From any two states of the output, and so also when the second
    call follows the first, the same boolean is returned and the same lines
    are appended; for a loaded document these lines list the same findings
    in the same order. *)
Theorem validate_workflow_deterministic
  (file_path : string) (ld : loaded) (out out' : stdout) :
  fst (validate_workflow file_path ld out) = fst (validate_workflow file_path ld out')
  /\ snd (validate_workflow file_path ld out) = out ++ printed file_path ld
  /\ snd (validate_workflow file_path ld out') = out' ++ printed file_path ld
  /\ snd (validate_workflow file_path ld (snd (validate_workflow file_path ld out)))
     = (out ++ printed file_path ld) ++ printed file_path ld.
Proof.
  rewrite (validate_workflow_appends file_path ld out).
  rewrite (validate_workflow_appends file_path ld out').
  rewrite (validate_workflow_appends file_path ld (snd _)).
  repeat split.
Qed.

(* ================================================================== *)
(** ** Jobs *)
(* ================================================================== *)

(** C6, as stated, fails: with [steps] present and null the script appends
    the "has empty steps" finding although [steps] is not an empty
    sequence. *)
Lemma null_steps_reported_empty :
  check_workflow null_steps_document = inr [JobEmptySteps "build"]
  /\ ~ empty_steps_iff_empty_sequence
         (KStr "build") [(KStr "runs-on", PStr "ubuntu"); (KStr "steps", PNone)].
Proof.
  split; [reflexivity|].
  intros [Himp _]. assert (H : In (JobEmptySteps "build") [JobEmptySteps "build"]) by now left.
  apply Himp in H. discriminate H.
Qed.

(** C6, amended: for a job whose value is a mapping (job names printing
    differently), the report has the "missing steps" finding of that job
    exactly when the key [steps] is absent, and its "has empty steps" finding
    exactly when [steps] is present with a value that is false in a boolean
    context (an empty sequence, but also null, an empty mapping, an empty
    string, zero or false); the two are never both reported for the job and
    their messages differ. *)
Theorem steps_findings_exact
  (d : pydict) (errors : list finding) (job_name : pykey) (cfg : pydict) :
  check_workflow (PDict d) = inr errors ->
  In (job_name, PDict cfg) (job_items d) ->
  NoDup (job_names (job_items d)) ->
  (In (JobMissingSteps (Py.str job_name)) errors
   <-> Py.lookup cfg (KStr "steps") = None)
  /\ (In (JobEmptySteps (Py.str job_name)) errors
      <-> exists steps, Py.lookup cfg (KStr "steps") = Some steps
                        /\ Py.truthy steps = false)
  /\ ~ (In (JobMissingSteps (Py.str job_name)) errors
        /\ In (JobEmptySteps (Py.str job_name)) errors)
  /\ message (JobMissingSteps (Py.str job_name))
     <> message (JobEmptySteps (Py.str job_name)).
Proof.
  intros H Hin Hnd. apply check_workflow_completes in H as (d' & Hd & _ & ->).
  injection Hd as <-.
  assert (Hown : forall f, job_of f = Some (Py.str job_name) ->
                           (In f (findings d) <-> In f (job_findings (job_name, PDict cfg)))).
  { intros f Hf.
    rewrite <- (filter_job_loop _ (job_name, PDict cfg) Hnd Hin).
    rewrite <- filter_findings_jobs by apply scoped_to_job_only.
    rewrite filter_In. unfold scoped_to. rewrite Hf. simpl.
    rewrite String.eqb_refl. tauto. }
  rewrite !Hown by reflexivity. rewrite job_findings_dict.
  assert (Hmsg : message (JobMissingSteps (Py.str job_name))
                 <> message (JobEmptySteps (Py.str job_name))).
  { intros Heq. apply message_injective in Heq. discriminate Heq. }
  destruct (Py.lookup cfg (KStr "runs-on")); destruct (Py.lookup cfg (KStr "steps")) as [s|];
    try destruct (Py.truthy s) eqn:Hs; simpl;
    (split; [|split; [|split; [|exact Hmsg]]]);
    try (split; intros; try congruence; intuition discriminate);
    try (intros [? ?]; intuition discriminate).
  all: try (split; [intros _; eexists; split; [reflexivity|assumption]|intros _; tauto]).
  all: try (split; [intuition discriminate|intros (s' & Hs' & Ht); congruence]).
Qed.

Lemma steps_findings_exact_witness :
  check_workflow null_steps_document = inr [JobEmptySteps "build"]
  /\ (In (JobEmptySteps "build") [JobEmptySteps "build"]
      <-> exists steps,
          Py.lookup [(KStr "runs-on", PStr "ubuntu"); (KStr "steps", PNone)] (KStr "steps")
          = Some steps /\ Py.truthy steps = false).
Proof.
  split; [reflexivity|].
  refine (proj1 (proj2
    (@steps_findings_exact
       [(KStr "name", PStr "CI");
        (KBool true, PStr "push");
        (KStr "jobs",
         PDict [(KStr "build",
                 PDict [(KStr "runs-on", PStr "ubuntu"); (KStr "steps", PNone)])])]
       [JobEmptySteps "build"] (KStr "build")
       [(KStr "runs-on", PStr "ubuntu"); (KStr "steps", PNone)]
       eq_refl _ _))).
  - simpl. now left.
  - simpl. repeat constructor. simpl; tauto.
Defined.

(** C7: a job whose value is not a mapping gets the single finding that it is
    not a dictionary: its iteration appends exactly that, in the position of
    the job among the jobs, and (job names printing differently) it is the
    only finding of the report about that job, so nothing is reported about
    its [runs-on] or [steps]. *)
Theorem non_mapping_job_single_finding
  (d : pydict) (errors : list finding) (job_name : pykey) (job_config : pyval) :
  check_workflow (PDict d) = inr errors ->
  In (job_name, job_config) (job_items d) ->
  Py.is_dict job_config = false ->
  (exists before after,
      job_items d = before ++ (job_name, job_config) :: after
      /\ filter is_job_finding errors
         = flat_map job_findings before
             ++ [JobNotDict (Py.str job_name)]
             ++ flat_map job_findings after)
  /\ (NoDup (job_names (job_items d)) ->
      filter (scoped_to (Py.str job_name)) errors = [JobNotDict (Py.str job_name)]).
Proof.
  intros H Hin Hnd. apply check_workflow_completes in H as (d' & Hd & _ & ->).
  injection Hd as <-. split.
  - destruct (in_split _ _ Hin) as (before & after & Hsplit).
    exists before, after. split; [assumption|].
    rewrite filter_findings_jobs by auto.
    rewrite (filter_id_when _ _ _ (job_loop_in (job_items d))).
    rewrite Hsplit, flat_map_app. cbn [flat_map].
    now rewrite (job_findings_not_dict job_name job_config Hnd).
  - intros Hnames.
    rewrite filter_findings_jobs by apply scoped_to_job_only.
    pose proof (filter_job_loop _ (job_name, job_config) Hnames Hin) as Hown.
    cbn [fst] in Hown. rewrite Hown.
    now apply job_findings_not_dict.
Qed.

Lemma non_mapping_job_single_finding_witness :
  check_workflow scalar_job_document = inr [JobNotDict "lint"]
  /\ filter (scoped_to "lint") [JobNotDict "lint"] = [JobNotDict "lint"].
Proof.
  split; [reflexivity|].
  refine (proj2
    (@non_mapping_job_single_finding
       [(KStr "name", PStr "CI");
        (KBool true, PStr "push");
        (KStr "jobs", PDict [(KStr "lint", PStr "todo"); (KStr "build", build_job)])]
       [JobNotDict "lint"] (KStr "lint") (PStr "todo")
       eq_refl _ eq_refl) _).
  - simpl. now left.
  - simpl. repeat constructor; simpl; intuition discriminate.
Defined.

(* ================================================================== *)
(** ** Documents the validator accepts *)
(* ================================================================== *)

Lemma flat_map_nil_iff (A B : Type) (f : A -> list B) (l : list A) :
  flat_map f l = [] <-> forall x, In x l -> f x = [].
Proof.
  induction l as [|a l IH]; simpl.
  - split; [intros _ x []|reflexivity].
  - split.
    + intros H. apply app_eq_nil in H as [Ha Hl].
      intros x [<-|Hx]; [assumption|]. now apply IH.
    + intros H. rewrite (H a) by now left. apply IH.
      intros x Hx. apply H. now right.
Qed.

Lemma trigger_step_nil (item : pykey * pyval) :
  trigger_step [] item = [] <-> trigger_ok item = true.
Proof.
  destruct item as [trigger config]. unfold trigger_step, trigger_ok.
  destruct config as [| | | |[|x l]|[|x l]]; simpl; split; intros H;
    try reflexivity; discriminate H.
Qed.

Lemma job_findings_nil (item : pykey * pyval) :
  job_findings item = [] <-> job_ok item = true.
Proof.
  destruct item as [job_name job_config]. unfold job_ok.
  destruct job_config as [| | | | |cfg];
    try (rewrite job_findings_not_dict by reflexivity; split; discriminate).
  rewrite job_findings_dict. cbn [snd].
  destruct (Py.lookup cfg (KStr "runs-on")); destruct (Py.lookup cfg (KStr "steps")) as [s|];
    try destruct (Py.truthy s); simpl; split; intros H;
    try reflexivity; discriminate H.
Qed.

Lemma trigger_findings_nil (v : pyval) :
  trigger_findings v = [] <-> forallb trigger_ok (triggers_of v) = true.
Proof.
  rewrite forallb_forall.
  destruct v; simpl; try (split; [intros _ x []|reflexivity]).
  rewrite flat_map_nil_iff.
  split; intros H x Hx; apply trigger_step_nil; now apply H.
Qed.

Lemma job_loop_nil (js : pydict) :
  flat_map job_findings js = [] <-> forallb job_ok js = true.
Proof.
  rewrite forallb_forall, flat_map_nil_iff.
  split; intros H x Hx; apply job_findings_nil; now apply H.
Qed.

(** No finding at all, and a job loop that does not raise. *)
Lemma findings_nil (d : pydict) :
  jobs_iterable d = true /\ findings d = [] <-> well_formed d = true.
Proof.
  unfold well_formed, findings, findings_with_trigger.
  rewrite !andb_true_iff, <- trigger_findings_nil.
  unfold jobs_iterable, name_findings, on_findings, jobs_findings, job_items.
  destruct (Py.lookup d (KStr "name")) as [n|];
    [|split; [intros [_ H]; discriminate H|intros [[[H _] _] _]; discriminate H]].
  destruct (Py.truthy (on_field d));
    [|split; [intros [_ H]; discriminate H|intros [[[_ H] _] _]; discriminate H]].
  cbn [app].
  destruct (Py.lookup d (KStr "jobs")) as [[| | | | |[|job js]]|]; cbn [Py.truthy Py.is_dict app];
    try (split; [intros [H1 H2]; try discriminate H1; try discriminate H2
                |intros [_ H]; discriminate H]).
  rewrite <- job_loop_nil.
  split.
  - intros [_ H]. apply app_eq_nil in H as [Ht Hj]. now repeat split.
  - intros [[_ Ht] Hj]. split; [reflexivity|]. now rewrite Ht, Hj.
Qed.

Lemma check_workflow_clean (workflow : pyval) :
  check_workflow workflow = inr [] <-> accepted (Loaded workflow) = true.
Proof.
  rewrite check_workflow_completes. unfold accepted. split.
  - intros (d & -> & Hj & Hf). apply findings_nil. now split.
  - destruct workflow as [| | | | |d]; try discriminate.
    intros H. apply findings_nil in H as [Hj Hf]. exists d. now repeat split.
Qed.

Lemma validate_workflow_true (file_path : string) (ld : loaded) (out : stdout) :
  fst (validate_workflow file_path ld out) = true <-> accepted ld = true.
Proof.
  destruct ld as [w|e|e]; try (simpl; split; discriminate).
  rewrite <- check_workflow_clean. unfold validate_workflow, report.
  destruct (check_workflow w) as [e|[|f errors]]; simpl; split; intros H;
    try reflexivity; discriminate H.
Qed.

(** X1: a call returns [True] exactly for a loaded mapping that has the key
    [name], a trigger field that is true in a boolean context and, when it is
    a mapping, has no trigger bound to an empty mapping or empty list, and a
    non-empty [jobs] mapping in which every job is a mapping with the key
    [runs-on] and a [steps] value that is true in a boolean context; it then
    prints the single "Valid" line. *)
Theorem accepted_iff_well_formed
  (file_path : string) (ld : loaded) (out : stdout) :
  (fst (validate_workflow file_path ld out) = true <-> accepted ld = true)
  /\ (accepted ld = true ->
      validate_workflow file_path ld out = (true, out ++ [PrintValid file_path])).
Proof.
  split; [apply validate_workflow_true|].
  intros H. destruct ld as [w|e|e]; try discriminate H.
  apply check_workflow_clean in H.
  unfold validate_workflow. now rewrite H.
Qed.

Lemma accepted_iff_well_formed_witness :
  accepted (Loaded valid_document) = true
  /\ validate_workflow "ci.yml" (Loaded valid_document) []
     = (true, [PrintValid "ci.yml"]).
Proof.
  split; [reflexivity|].
  apply (proj2 (accepted_iff_well_formed "ci.yml" (Loaded valid_document) [])).
  reflexivity.
Defined.

(* ================================================================== *)
(** ** Which findings a report contains *)
(* ================================================================== *)

Lemma in_findings (d : pydict) (f : finding) :
  In f (findings d) <->
  In f (name_findings d) \/ In f (on_findings (on_field d))
  \/ In f (jobs_findings d) \/ In f (trigger_findings (on_field d))
  \/ In f (flat_map job_findings (job_items d)).
Proof. unfold findings, findings_with_trigger. now rewrite !in_app_iff. Qed.

(** A finding of the first three blocks is in the report only through its
    own block. *)
Ltac other_block H :=
  first
    [ apply name_findings_in in H; discriminate H
    | apply on_findings_in in H; discriminate H
    | apply jobs_findings_in in H; destruct H as [H|H]; discriminate H
    | apply trigger_findings_no_job in H; discriminate H
    | apply job_loop_in in H; discriminate H ].

(** X2: the "missing name" finding is reported exactly when the top-level
    mapping has no key [name], whatever else the document contains and
    whatever the key is bound to; when reported it is the first finding and
    occurs once. *)
Theorem name_finding_exact (d : pydict) (errors : list finding) :
  check_workflow (PDict d) = inr errors ->
  (In MissingName errors <-> Py.lookup d (KStr "name") = None)
  /\ (Py.lookup d (KStr "name") = None ->
      exists rest, errors = MissingName :: rest /\ ~ In MissingName rest).
Proof.
  intros H. apply check_workflow_completes in H as (d' & Hd & _ & ->).
  injection Hd as <-. split.
  - rewrite in_findings. unfold name_findings.
    destruct (Py.lookup d (KStr "name")) as [v|].
    + split; [|discriminate].
      intros [[]|[H|[H|[H|H]]]]; other_block H.
    + split; [reflexivity|]. intros _. left. now left.
  - intros Hn. unfold findings, findings_with_trigger, name_findings. rewrite Hn.
    eexists; split; [reflexivity|].
    rewrite !in_app_iff. intros [H|[H|[H|H]]]; other_block H.
Qed.

Lemma name_finding_exact_witness :
  check_workflow scenario_B = inr [MissingName; MissingOn; EmptyJobs]
  /\ (In MissingName [MissingName; MissingOn; EmptyJobs]
      <-> Py.lookup [(KStr "jobs", PDict [])] (KStr "name") = None).
Proof.
  split; [reflexivity|].
  apply (name_finding_exact [(KStr "jobs", PDict [])]). reflexivity.
Defined.

(** X3: in a report, "missing jobs" appears exactly when the key [jobs] is
    absent and "empty jobs" exactly when [jobs] is the empty mapping; a
    [jobs] mapping with at least one entry gets neither. *)
Theorem jobs_findings_exact (d : pydict) (errors : list finding) :
  check_workflow (PDict d) = inr errors ->
  (In MissingJobs errors <-> Py.lookup d (KStr "jobs") = None)
  /\ (In EmptyJobs errors <-> Py.lookup d (KStr "jobs") = Some (PDict []))
  /\ (forall job js,
         Py.lookup d (KStr "jobs") = Some (PDict (job :: js)) ->
         ~ In MissingJobs errors /\ ~ In EmptyJobs errors).
Proof.
  intros H. apply check_workflow_completes in H as (d' & Hd & Hj & ->).
  injection Hd as <-.
  assert (Hm : In MissingJobs (findings d) <-> In MissingJobs (jobs_findings d)).
  { rewrite in_findings. split; [|tauto].
    intros [H|[H|[H|[H|H]]]]; try assumption; other_block H. }
  assert (He : In EmptyJobs (findings d) <-> In EmptyJobs (jobs_findings d)).
  { rewrite in_findings. split; [|tauto].
    intros [H|[H|[H|[H|H]]]]; try assumption; other_block H. }
  rewrite Hm, He. unfold jobs_findings, jobs_iterable in *.
  destruct (Py.lookup d (KStr "jobs")) as [[| | | | |[|job js]]|];
    try discriminate Hj; simpl;
    (split; [|split]);
    try (split; intros; try reflexivity; intuition discriminate);
    intros; try discriminate; intuition discriminate.
Qed.

Lemma jobs_findings_exact_witness :
  check_workflow scenario_B = inr [MissingName; MissingOn; EmptyJobs]
  /\ (In EmptyJobs [MissingName; MissingOn; EmptyJobs]
      <-> Py.lookup [(KStr "jobs", PDict [])] (KStr "jobs") = Some (PDict [])).
Proof.
  split; [reflexivity|].
  apply (jobs_findings_exact [(KStr "jobs", PDict [])]). reflexivity.
Defined.



Lemma in_trigger_step (trigger : pykey) (config : pyval) (f : finding) :
  In f (trigger_step [] (trigger, config)) <->
  (f = EmptyTriggerConfiguration (Py.str trigger) /\ config = PDict [])
  \/ (f = EmptyTriggerList (Py.str trigger) /\ config = PList []).
Proof.
  unfold trigger_step.
  destruct config as [| | | |[|x l]|[|x l]]; simpl;
    split; intros H; try tauto;
    try (destruct H as [[_ H]|[_ H]]; discriminate H).
  - destruct H as [<-|[]]. now right.
  - destruct H as [[_ H]|[-> _]]; [discriminate H|now left].
  - destruct H as [<-|[]]. now left.
  - destruct H as [[-> _]|[_ H]]; [now left|discriminate H].
Qed.

(** X5: the findings about trigger configurations.  "Empty t trigger
    configuration" is reported exactly when the trigger field is a mapping
    with a trigger printing as t bound to the empty mapping, and "Empty t
    trigger list" exactly when one is bound to the empty list.  So a trigger
    field that is a string or a list, and a trigger bound to null, produce no
    such finding. *)
Theorem trigger_findings_exact (d : pydict) (errors : list finding) (t : string) :
  check_workflow (PDict d) = inr errors ->
  (In (EmptyTriggerConfiguration t) errors
   <-> exists trigger, In (trigger, PDict []) (triggers_of (on_field d))
                       /\ Py.str trigger = t)
  /\ (In (EmptyTriggerList t) errors
      <-> exists trigger, In (trigger, PList []) (triggers_of (on_field d))
                          /\ Py.str trigger = t).
Proof.
  intros H. apply check_workflow_completes in H as (d' & Hd & _ & ->).
  injection Hd as <-.
  assert (Hblock : forall f, is_trigger_finding f = true ->
             (In f (findings d) <->
              exists item, In item (triggers_of (on_field d))
                           /\ In f (trigger_step [] item))).
  { intros f Hf. rewrite in_findings. split.
    - intros [H|[H|[H|[H|H]]]].
      + apply name_findings_in in H. subst. discriminate Hf.
      + apply on_findings_in in H. subst. discriminate Hf.
      + apply jobs_findings_in in H. destruct H; subst; discriminate Hf.
      + destruct (on_field d); simpl in H; try tauto. now apply in_flat_map.
      + apply job_loop_in in H. destruct f; discriminate.
    - intros (item & Hin & Hstep). right; right; right; left.
      destruct (on_field d); simpl in Hin; try tauto.
      apply in_flat_map. now exists item. }
  rewrite !Hblock by reflexivity. split; split.
  - intros ([k c] & Hin & Hstep). apply in_trigger_step in Hstep.
    destruct Hstep as [[Hf ->]|[Hf _]]; [|discriminate Hf].
    injection Hf as ->. now exists k.
  - intros (k & Hin & <-). exists (k, PDict []). split; [assumption|].
    apply in_trigger_step. now left.
  - intros ([k c] & Hin & Hstep). apply in_trigger_step in Hstep.
    destruct Hstep as [[Hf _]|[Hf ->]]; [discriminate Hf|].
    injection Hf as ->. now exists k.
  - intros (k & Hin & <-). exists (k, PList []). split; [assumption|].
    apply in_trigger_step. now right.
Qed.

Lemma trigger_findings_exact_witness :
  check_workflow scenario_A = inr [EmptyTriggerConfiguration "push"]
  /\ (In (EmptyTriggerConfiguration "push") [EmptyTriggerConfiguration "push"]
      <-> exists trigger,
          In (trigger, PDict []) [(KStr "push", PDict [])] /\ Py.str trigger = "push").
Proof.
  split; [reflexivity|].
  apply (trigger_findings_exact
           [(KStr "name", PStr "CI");
            (KBool true, PDict [(KStr "push", PDict [])]);
            (KStr "jobs", PDict [(KStr "build", build_job)])]
           [EmptyTriggerConfiguration "push"] "push" eq_refl).
Defined.

(** The findings of the report about one job are those of its iteration. *)
Lemma in_findings_own_job
  (d : pydict) (job_name : pykey) (job_config : pyval) (f : finding) :
  In (job_name, job_config) (job_items d) ->
  NoDup (job_names (job_items d)) ->
  job_of f = Some (Py.str job_name) ->
  (In f (findings d) <-> In f (job_findings (job_name, job_config))).
Proof.
  intros Hin Hnd Hf.
  rewrite <- (filter_job_loop _ (job_name, job_config) Hnd Hin).
  rewrite <- filter_findings_jobs by apply scoped_to_job_only.
  rewrite filter_In. unfold scoped_to. rewrite Hf. cbn [fst].
  rewrite String.eqb_refl. tauto.
Qed.

(** X6: for a job whose value is a mapping (job names printing differently),
    "missing runs-on" is reported exactly when the key [runs-on] is absent
    from the job, whatever it is bound to otherwise, and the job is never
    reported as "not a dictionary". *)
Theorem runs_on_finding_exact
  (d : pydict) (errors : list finding) (job_name : pykey) (cfg : pydict) :
  check_workflow (PDict d) = inr errors ->
  In (job_name, PDict cfg) (job_items d) ->
  NoDup (job_names (job_items d)) ->
  (In (JobMissingRunsOn (Py.str job_name)) errors
   <-> Py.lookup cfg (KStr "runs-on") = None)
  /\ ~ In (JobNotDict (Py.str job_name)) errors.
Proof.
  intros H Hin Hnd. apply check_workflow_completes in H as (d' & Hd & _ & ->).
  injection Hd as <-.
  rewrite !(in_findings_own_job d job_name (PDict cfg)) by (assumption || reflexivity).
  rewrite job_findings_dict.
  destruct (Py.lookup cfg (KStr "runs-on")); destruct (Py.lookup cfg (KStr "steps")) as [s|];
    try destruct (Py.truthy s); simpl; split;
    try (split; intros; try reflexivity; intuition discriminate);
    intuition discriminate.
Qed.

Lemma runs_on_finding_exact_witness :
  check_workflow scenario_C = inr [JobMissingRunsOn "build"]
  /\ (In (JobMissingRunsOn "build") [JobMissingRunsOn "build"]
      <-> Py.lookup [(KStr "steps", PList [PStr "a"; PStr "b"])] (KStr "runs-on") = None).
Proof.
  split; [reflexivity|].
  refine (proj1
    (runs_on_finding_exact
       [(KStr "name", PStr "CI");
        (KBool true, PStr "push");
        (KStr "jobs",
         PDict [(KStr "build", PDict [(KStr "steps", PList [PStr "a"; PStr "b"])])])]
       [JobMissingRunsOn "build"] (KStr "build")
       [(KStr "steps", PList [PStr "a"; PStr "b"])]
       eq_refl _ _)).
  - simpl. now left.
  - simpl. repeat constructor. simpl; tauto.
Defined.

Lemma flat_map_length_le (A B : Type) (f : A -> list B) (n : nat) (l : list A) :
  (forall x, List.length (f x) <= n) ->
  List.length (flat_map f l) <= n * List.length l.
Proof.
  intros Hf. induction l as [|a l IH]; simpl; [lia|].
  rewrite length_app. specialize (Hf a). lia.
Qed.

Lemma trigger_step_length (item : pykey * pyval) :
  List.length (trigger_step [] item) <= 1.
Proof.
  destruct item as [t c]. unfold trigger_step.
  destruct (Py.is_dict c && negb (Py.truthy c));
    [|destruct (Py.is_list c && negb (Py.truthy c))]; simpl; lia.
Qed.

Lemma job_findings_length (item : pykey * pyval) :
  List.length (job_findings item) <= 2.
Proof.
  destruct item as [k v]. destruct v;
    try (rewrite job_findings_not_dict by reflexivity; simpl; lia).
  rewrite job_findings_dict.
  destruct (Py.lookup d (KStr "runs-on")); destruct (Py.lookup d (KStr "steps")) as [s|];
    try destruct (Py.truthy s); simpl; lia.
Qed.

Lemma filter_trigger_block (d : pydict) :
  filter is_trigger_finding (findings d) = trigger_findings (on_field d).
Proof.
  unfold findings, findings_with_trigger. rewrite !filter_app.
  rewrite (filter_nil_when _ _ (name_findings d)), (filter_nil_when _ _ (on_findings _)),
    (filter_nil_when _ _ (jobs_findings d)), (filter_nil_when _ _ (flat_map _ _)),
    (filter_id_when _ _ (trigger_findings _)).
  - now rewrite app_nil_r.
  - apply trigger_findings_no_job.
  - intros f Hf. apply job_loop_in in Hf. destruct f; try discriminate; reflexivity.
  - intros f Hf. now destruct (jobs_findings_in _ _ Hf) as [->| ->].
  - intros f Hf. now rewrite (on_findings_in _ _ Hf).
  - intros f Hf. now rewrite (name_findings_in _ _ Hf).
Qed.

Lemma filter_job_block (d : pydict) :
  filter is_job_finding (findings d) = flat_map job_findings (job_items d).
Proof.
  rewrite filter_findings_jobs by auto.
  apply filter_id_when, job_loop_in.
Qed.

(** X7: the size of a report.  There is at most one finding for each of the
    name, the trigger field and [jobs], at most one per trigger and at most
    two per job. *)
Theorem report_length_bound (d : pydict) (errors : list finding) :
  check_workflow (PDict d) = inr errors ->
  List.length errors
  <= 3 + List.length (triggers_of (on_field d)) + 2 * List.length (job_items d)
  /\ List.length (filter is_trigger_finding errors)
     <= List.length (triggers_of (on_field d))
  /\ List.length (filter is_job_finding errors) <= 2 * List.length (job_items d).
Proof.
  intros H.
  apply check_workflow_completes in H as (d' & Hd & _ & ->).
  injection Hd as <-.
  assert (Ht : List.length (trigger_findings (on_field d))
               <= List.length (triggers_of (on_field d))).
  { destruct (on_field d); simpl; try lia.
    pose proof (flat_map_length_le _ _ (trigger_step []) 1 d0 trigger_step_length). lia. }
  pose proof (flat_map_length_le _ _ job_findings 2 (job_items d) job_findings_length) as Hj.
  rewrite filter_trigger_block, filter_job_block. split; [|split]; try assumption.
  unfold findings, findings_with_trigger. rewrite !length_app.
  assert (List.length (name_findings d) <= 1)
    by (unfold name_findings; destruct (Py.lookup d (KStr "name")); simpl; lia).
  assert (List.length (on_findings (on_field d)) <= 1)
    by (unfold on_findings; destruct (Py.truthy (on_field d)); simpl; lia).
  assert (List.length (jobs_findings d) <= 1)
    by (unfold jobs_findings; destruct (Py.lookup d (KStr "jobs")) as [j|];
        [destruct (Py.truthy j)|]; simpl; lia).
  lia.
Qed.

Lemma report_length_bound_witness :
  check_workflow scenario_B = inr [MissingName; MissingOn; EmptyJobs]
  /\ List.length [MissingName; MissingOn; EmptyJobs] <= 3 + 0 + 2 * 0.
Proof.
  split; [reflexivity|].
  apply (report_length_bound [(KStr "jobs", PDict [])] [MissingName; MissingOn; EmptyJobs]).
  reflexivity.
Defined.

(** X8: when the document has both the key "on" and the key [True], the value
    under "on" is the trigger field if it is true in a boolean context, and
    the value under [True] is the trigger field otherwise. *)
Theorem both_keys_precedence
  (d : pydict) (errors : list finding) (v alias : pyval) :
  check_workflow (PDict d) = inr errors ->
  Py.lookup d (KStr "on") = Some v ->
  Py.lookup d (KBool true) = Some alias ->
  on_lookup (PDict d) = inr (if Py.truthy v then v else alias)
  /\ errors = findings_with_trigger d (if Py.truthy v then v else alias).
Proof.
  intros H Hon Halias. apply check_workflow_completes in H as (d' & Hd & _ & ->).
  injection Hd as <-. rewrite on_lookup_dict.
  unfold findings, on_field. rewrite Hon, Halias. now split.
Qed.

Lemma both_keys_precedence_witness :
  check_workflow
    (PDict [(KStr "name", PStr "CI"); (KStr "on", PList []);
            (KBool true, PStr "push"); (KStr "jobs", PDict [(KStr "build", build_job)])])
  = inr []
  /\ on_lookup
       (PDict [(KStr "name", PStr "CI"); (KStr "on", PList []);
               (KBool true, PStr "push"); (KStr "jobs", PDict [(KStr "build", build_job)])])
     = inr (PStr "push").
Proof.
  split; [reflexivity|].
  apply (both_keys_precedence
           [(KStr "name", PStr "CI"); (KStr "on", PList []);
            (KBool true, PStr "push"); (KStr "jobs", PDict [(KStr "build", build_job)])]
           [] (PList []) (PStr "push")); reflexivity.
Defined.

(** X9: the messages of a report determine its findings: two lists of
    findings with the same texts, in the same order, are the same list, so
    the text of a line tells which check produced it and for which printed
    name. *)
Theorem report_text_determines_findings (errors errors' : list finding) :
  map message errors = map message errors' -> errors = errors'.
Proof.
  revert errors'. induction errors as [|f errors IH]; intros [|g errors'] H;
    try reflexivity; try discriminate H.
  simpl in H. injection H as Hf Hrest.
  apply message_injective in Hf. apply IH in Hrest. now subst.
Qed.

Lemma report_text_determines_findings_witness :
  map message [MissingName; JobEmptySteps "build"]
  = ["Missing required field: name"; "Job build has empty steps"]
  /\ [MissingName; JobEmptySteps "build"] = [MissingName; JobEmptySteps "build"].
Proof.
  split; [reflexivity|].
  apply (report_text_determines_findings
           [MissingName; JobEmptySteps "build"] [MissingName; JobEmptySteps "build"]).
  reflexivity.
Defined.

(* ================================================================== *)
(** ** The driver *)
(* ================================================================== *)

Lemma validate_workflow_returns (file_path : string) (ld : loaded) (out : stdout) :
  validate_workflow file_path ld out = (accepted ld, out ++ printed file_path ld).
Proof.
  rewrite validate_workflow_appends. f_equal.
  pose proof (validate_workflow_true file_path ld []) as H.
  destruct (fst (validate_workflow file_path ld [])), (accepted ld);
    try reflexivity; destruct H as [H1 H2];
    [discriminate (H1 eq_refl)|discriminate (H2 eq_refl)].
Qed.

(** The loop of [main]: every file is validated, in order, and [all_valid]
    ends up true when every call returned [True]. *)
Lemma main_loop (load : string -> loaded) (files : list string)
  (all_valid : bool) (out : stdout) :
  fold_left (main_step load) files (all_valid, out)
  = (all_valid && forallb (fun p => accepted (load p)) files,
     out ++ flat_map (fun p => printed p (load p)) files).
Proof.
  revert all_valid out. induction files as [|p files IH]; intros all_valid out; simpl.
  - now rewrite andb_true_r, app_nil_r.
  - rewrite validate_workflow_returns, IH, <- app_assoc.
    destruct (accepted (load p)), all_valid; reflexivity.
Qed.

Lemma main_unfold (argv : list string) (load : string -> loaded) :
  main argv load =
  if (List.length argv <? 2)%nat then (1, [PrintUsage])
  else (if forallb (fun p => accepted (load p)) (skipn 1 argv) then 0 else 1,
        map FromValidate (flat_map (fun p => printed p (load p)) (skipn 1 argv))).
Proof.
  unfold main. destruct (List.length argv <? 2)%nat; [reflexivity|].
  rewrite main_loop. simpl.
  destruct (forallb _ _); reflexivity.
Qed.

(** X10: the exit status of [main].  It is 0 exactly when at least one file
    is given and every file given is accepted; otherwise (no file argument,
    or some file that has findings, does not parse or raises) it is 1. *)
Theorem main_exit_status (argv : list string) (load : string -> loaded) :
  (fst (main argv load) = 0
   <-> 2 <= List.length argv
       /\ forall p, In p (skipn 1 argv) -> accepted (load p) = true)
  /\ (fst (main argv load) <> 0 -> fst (main argv load) = 1).
Proof.
  rewrite main_unfold.
  destruct (List.length argv <? 2)%nat eqn:Hlen.
  - apply Nat.ltb_lt in Hlen. simpl. split; [|reflexivity].
    split; [discriminate|]. intros [H _]. lia.
  - apply Nat.ltb_ge in Hlen.
    destruct (forallb _ _) eqn:Hall; simpl.
    + split; [|intros H; exfalso; now apply H]. split; [|reflexivity].
      intros _. split; [assumption|]. now apply forallb_forall.
    + split; [|reflexivity]. split; [discriminate|].
      intros [_ H].
      assert (Htrue : forallb (fun p => accepted (load p)) (skipn 1 argv) = true)
        by now apply forallb_forall.
      rewrite Htrue in Hall. discriminate Hall.
Qed.

(** X11: what [main] prints.  Without a file argument it prints the usage
    line only; otherwise it validates every file given, in the order of the
    command line, and goes on after a file that fails: the output is the
    lines of each call one after the other. *)
Theorem main_validates_every_file (argv : list string) (load : string -> loaded) :
  (List.length argv < 2 -> main argv load = (1, [PrintUsage]))
  /\ (2 <= List.length argv ->
      snd (main argv load)
      = map FromValidate (flat_map (fun p => printed p (load p)) (skipn 1 argv))
        /\ List.length (skipn 1 argv) <= List.length (snd (main argv load))).
Proof.
  rewrite main_unfold. split; intros Hlen.
  - apply Nat.ltb_lt in Hlen. now rewrite Hlen.
  - apply Nat.ltb_ge in Hlen. rewrite Hlen. cbn [snd]. split; [reflexivity|].
    rewrite length_map. clear Hlen.
    generalize (skipn 1 argv) as files.
    induction files as [|p files IH]; cbn [flat_map List.length]; [lia|].
    rewrite length_app.
    assert (1 <= List.length (printed p (load p))).
    { unfold printed. destruct (load p) as [w|e|e]; simpl; try lia.
      destruct (check_workflow w) as [e|[|f errors]]; simpl; lia. }
    lia.
Qed.

Lemma main_validates_every_file_witness :
  2 <= List.length ["validate"; "a.yml"; "b.yml"]
  /\ snd (main ["validate"; "a.yml"; "b.yml"]
               (fun p => if String.eqb p "a.yml" then RaisedYAMLError "bad"
                         else Loaded valid_document))
     = [FromValidate (PrintYAMLError "a.yml" "bad"); FromValidate (PrintValid "b.yml")].
Proof.
  split; [simpl; lia|].
  apply (proj2 (main_validates_every_file
                  ["validate"; "a.yml"; "b.yml"]
                  (fun p => if String.eqb p "a.yml" then RaisedYAMLError "bad"
                            else Loaded valid_document))).
  simpl; lia.
Defined.

Lemma forallb_permutation (A : Type) (p : A -> bool) (l l' : list A) :
  Permutation l l' -> forallb p l = forallb p l'.
Proof.
  induction 1; simpl; try congruence.
  destruct (p x), (p y); reflexivity.
Qed.

(** X12: the exit status of [main] does not depend on the order in which the
    files are given. *)
Theorem main_exit_status_permutation
  (prog : string) (files files' : list string) (load : string -> loaded) :
  Permutation files files' ->
  fst (main (prog :: files) load) = fst (main (prog :: files') load).
Proof.
  intros Hperm. rewrite !main_unfold.
  pose proof (Permutation_length Hperm) as Hlen.
  cbn [List.length skipn]. rewrite <- Hlen.
  destruct (S (List.length files) <? 2)%nat; [reflexivity|].
  cbn [fst]. now rewrite (forallb_permutation _ _ _ _ Hperm).
Qed.

Lemma main_exit_status_permutation_witness :
  Permutation ["a.yml"; "b.yml"] ["b.yml"; "a.yml"]
  /\ fst (main ["validate"; "a.yml"; "b.yml"] (fun _ => Loaded valid_document))
     = fst (main ["validate"; "b.yml"; "a.yml"] (fun _ => Loaded valid_document)).
Proof.
  split; [apply perm_swap|].
  apply (main_exit_status_permutation "validate" ["a.yml"; "b.yml"] ["b.yml"; "a.yml"]).
  apply perm_swap.
Defined.

(* ================================================================== *)
(** ** What the checks look at *)
(* ================================================================== *)

(** The report is a function of four lookups. *)
Lemma check_workflow_lookups (d d' : pydict) :
  (Py.lookup d (KStr "name") = None <-> Py.lookup d' (KStr "name") = None) ->
  Py.lookup d (KStr "on") = Py.lookup d' (KStr "on") ->
  Py.lookup d (KBool true) = Py.lookup d' (KBool true) ->
  Py.lookup d (KStr "jobs") = Py.lookup d' (KStr "jobs") ->
  check_workflow (PDict d) = check_workflow (PDict d').
Proof.
  intros Hname Hon Halias Hjobs.
  assert (Hf : findings d = findings d').
  { unfold findings, findings_with_trigger, on_field, name_findings,
      jobs_findings, job_items.
    rewrite Hon, Halias, Hjobs.
    destruct (Py.lookup d (KStr "name")) as [n|], (Py.lookup d' (KStr "name")) as [n'|];
      try reflexivity.
    - destruct Hname as [_ H]. discriminate (H eq_refl).
    - destruct Hname as [H _]. discriminate (H eq_refl). }
  rewrite !check_workflow_dict, Hjobs, Hf. reflexivity.
Qed.

(** X13: the checks read the top-level mapping only through the presence of
    [name] and the values under "on", [True] and [jobs]: two documents that
    agree there get the same report, the same output and the same result,
    whatever other keys they have and in whatever order. *)
Theorem other_keys_ignored
  (file_path : string) (d d' : pydict) (out : stdout) :
  (Py.lookup d (KStr "name") = None <-> Py.lookup d' (KStr "name") = None) ->
  Py.lookup d (KStr "on") = Py.lookup d' (KStr "on") ->
  Py.lookup d (KBool true) = Py.lookup d' (KBool true) ->
  Py.lookup d (KStr "jobs") = Py.lookup d' (KStr "jobs") ->
  check_workflow (PDict d) = check_workflow (PDict d')
  /\ validate_workflow file_path (Loaded (PDict d)) out
     = validate_workflow file_path (Loaded (PDict d')) out.
Proof.
  intros Hname Hon Halias Hjobs.
  pose proof (check_workflow_lookups d d' Hname Hon Halias Hjobs) as H.
  split; [assumption|]. unfold validate_workflow. now rewrite H.
Qed.

Lemma other_keys_ignored_witness :
  check_workflow
    (PDict [(KStr "env", PDict [(KStr "CI", PBool true)]);
            (KStr "jobs", PDict []); (KStr "permissions", PNone)])
  = check_workflow scenario_B.
Proof.
  refine (proj1 (other_keys_ignored "ci.yml"
            [(KStr "env", PDict [(KStr "CI", PBool true)]);
             (KStr "jobs", PDict []); (KStr "permissions", PNone)]
            [(KStr "jobs", PDict [])] [] _ _ _ _)); reflexivity.
Defined.

(** X14: giving a document the key [name] it lacks removes the "missing name"
    finding and changes nothing else: the new report is the old one without
    its first finding. *)
Theorem adding_name_removes_its_finding
  (d : pydict) (v : pyval) (errors : list finding) :
  Py.lookup d (KStr "name") = None ->
  check_workflow (PDict d) = inr errors ->
  errors = MissingName :: tl errors
  /\ check_workflow (PDict ((KStr "name", v) :: d)) = inr (tl errors).
Proof.
  intros Hname H.
  assert (Hj : Py.lookup ((KStr "name", v) :: d) (KStr "jobs") = Py.lookup d (KStr "jobs"))
    by reflexivity.
  assert (Hf : findings d = MissingName :: findings ((KStr "name", v) :: d)).
  { unfold findings, findings_with_trigger, on_field, name_findings,
      jobs_findings, job_items.
    rewrite Hname. reflexivity. }
  rewrite check_workflow_dict in *. rewrite Hj.
  destruct (Py.lookup d (KStr "jobs")) as [[| | | | |js]|]; try discriminate H;
    injection H as <-; rewrite Hf; split; reflexivity.
Qed.

Lemma adding_name_removes_its_finding_witness :
  check_workflow scenario_B = inr [MissingName; MissingOn; EmptyJobs]
  /\ check_workflow (PDict [(KStr "name", PStr "CI"); (KStr "jobs", PDict [])])
     = inr [MissingOn; EmptyJobs].
Proof.
  split; [reflexivity|].
  apply (adding_name_removes_its_finding
           [(KStr "jobs", PDict [])] (PStr "CI") [MissingName; MissingOn; EmptyJobs]);
    reflexivity.
Defined.
